(** * Metaverse: first-person movement integration (src/main.js)

    A shallow embedding of the keyboard handlers [onKeyDown] / [onKeyUp]
    and of the frame callback [animate] of src/main.js, together with the
    properties of the movement specification.

    JavaScript numbers are kept abstract behind the interface [Number]:
    the program is written once over that interface and is then read at
    two instances, the real numbers (exact arithmetic, used for the
    arithmetic properties) and IEEE binary64 (the kernel's primitive
    floats, used to run the program on concrete inputs). *)

From Stdlib Require Import Floats.
From Stdlib Require Import ZArith Reals Lra Psatz String List Bool.
Import ListNotations.

(** ** Numbers *)

(** The arithmetic the program uses: integer-valued literals, the four
    operations, unary minus, [Math.sqrt], the comparison [<] and the
    truthiness test behind [||]. *)
Class Number (N : Type) : Type := {
  lit : Z -> N;
  nadd : N -> N -> N;
  nsub : N -> N -> N;
  nmul : N -> N -> N;
  ndiv : N -> N -> N;
  nneg : N -> N;
  nsqrt : N -> N;
  nlt : N -> N -> bool;
  truthy : N -> bool
}.

Declare Scope num_scope.
Delimit Scope num_scope with num.
Notation "a + b" := (nadd a b) : num_scope.
Notation "a - b" := (nsub a b) : num_scope.
Notation "a * b" := (nmul a b) : num_scope.
Notation "a / b" := (ndiv a b) : num_scope.
Notation "- a" := (nneg a) : num_scope.
Notation "a <? b" := (nlt a b) : num_scope.

(** Exact arithmetic, an idealisation of the program's numbers: no
    rounding, no overflow, no NaN.  [truthy] is JavaScript's ToBoolean on a
    number: only zero (and NaN, which the reals do not have) is falsy.
    Properties of the damping and of the vertical motion are therefore
    stated with non-strict comparisons and explicit ranges for frame times
    and velocities, and the cases in which rounding or overflow decides
    are shown on binary64. *)
#[export] Instance RNumber : Number R := {|
  lit := IZR;
  nadd := Rplus;
  nsub := Rminus;
  nmul := Rmult;
  ndiv := Rdiv;
  nneg := Ropp;
  nsqrt := R_sqrt.sqrt;
  nlt := fun a b => if Rlt_dec a b then true else false;
  truthy := fun a => if Req_dec_T a 0%R then false else true
|}.

(** IEEE 754 binary64, the representation of a JavaScript number. *)
Definition float_lit (n : Z) : float :=
  if (n <? 0)%Z then PrimFloat.opp (PrimFloat.of_uint63 (Uint63.of_Z (- n)))
  else PrimFloat.of_uint63 (Uint63.of_Z n).

#[export] Instance FloatNumber : Number float := {|
  lit := float_lit;
  nadd := PrimFloat.add;
  nsub := PrimFloat.sub;
  nmul := PrimFloat.mul;
  ndiv := PrimFloat.div;
  nneg := PrimFloat.opp;
  nsqrt := PrimFloat.sqrt;
  nlt := PrimFloat.ltb;
  truthy := fun a => negb (PrimFloat.eqb a PrimFloat.zero || PrimFloat.is_nan a)
|}.

(** ** The program *)

Section Program.

Context {N : Type} `{Number N}.
Local Open Scope string_scope.
Local Open Scope num_scope.

(** [THREE.Vector3], the vector type of the rendering library: three
    numbers. *)
Record Vector3 : Type := mkVector3 { x : N; y : N; z : N }.

(** Modelled from the spec: [Vector3.length] of the external rendering
    library (not part of main.js), the Euclidean length
    [Math.sqrt(x*x + y*y + z*z)]. *)
Definition length (v : Vector3) : N :=
  nsqrt (x v * x v + y v * y v + z v * z v).

(** Modelled from the spec: [Vector3.multiplyScalar] of the external
    rendering library, componentwise scaling. *)
Definition multiplyScalar (v : Vector3) (s : N) : Vector3 :=
  {| x := x v * s; y := y v * s; z := z v * s |}.

(** Modelled from the spec: [Vector3.divideScalar] of the external
    rendering library, scaling by [1 / s]. *)
Definition divideScalar (v : Vector3) (s : N) : Vector3 :=
  multiplyScalar v (lit 1 / s).

(** Modelled from the spec: [Vector3.normalize] of the external rendering
    library, which the frame calls on [direction]: the zero vector stays
    the zero vector, any other vector is divided by its length
    ([divideScalar(length() || 1)]). *)
Definition normalize (v : Vector3) : Vector3 :=
  let l := length v in
  divideScalar v (if truthy l then l else lit 1).

(** The module-level variables of main.js, the camera position
    ([camera.position], which is [controls.object.position]) and the two
    pieces of state the pointer-lock controls own: [isLocked] and the
    horizontal right vector of the camera ([rightX], [rightZ]). *)
Record World : Type := mkWorld {
  moveForward : bool;
  moveBackward : bool;
  moveLeft : bool;
  moveRight : bool;
  isSprinting : bool;
  canJump : bool;
  velocity : Vector3;
  direction : Vector3;
  position : Vector3;
  rightX : N;
  rightZ : N;
  isLocked : bool
}.

Definition speed : N := lit 50.
Definition sprintMultiplier : N := lit 2.
Definition gravity : N := lit 30.
Definition jumpVelocity : N := lit 12.

(** The state after the top-level statements of main.js have run: the
    camera at height 2 looking down -z, every flag false, pointer not
    locked. *)
Definition initial : World := {|
  moveForward := false;
  moveBackward := false;
  moveLeft := false;
  moveRight := false;
  isSprinting := false;
  canJump := false;
  velocity := {| x := lit 0; y := lit 0; z := lit 0 |};
  direction := {| x := lit 0; y := lit 0; z := lit 0 |};
  position := {| x := lit 0; y := lit 2; z := lit 0 |};
  rightX := lit 1;
  rightZ := lit 0;
  isLocked := false
|}.

(** Field updates. *)
Definition set_moveForward (b : bool) (w : World) : World :=
  mkWorld b (moveBackward w) (moveLeft w) (moveRight w) (isSprinting w)
    (canJump w) (velocity w) (direction w) (position w) (rightX w) (rightZ w)
    (isLocked w).
Definition set_moveBackward (b : bool) (w : World) : World :=
  mkWorld (moveForward w) b (moveLeft w) (moveRight w) (isSprinting w)
    (canJump w) (velocity w) (direction w) (position w) (rightX w) (rightZ w)
    (isLocked w).
Definition set_moveLeft (b : bool) (w : World) : World :=
  mkWorld (moveForward w) (moveBackward w) b (moveRight w) (isSprinting w)
    (canJump w) (velocity w) (direction w) (position w) (rightX w) (rightZ w)
    (isLocked w).
Definition set_moveRight (b : bool) (w : World) : World :=
  mkWorld (moveForward w) (moveBackward w) (moveLeft w) b (isSprinting w)
    (canJump w) (velocity w) (direction w) (position w) (rightX w) (rightZ w)
    (isLocked w).
Definition set_isSprinting (b : bool) (w : World) : World :=
  mkWorld (moveForward w) (moveBackward w) (moveLeft w) (moveRight w) b
    (canJump w) (velocity w) (direction w) (position w) (rightX w) (rightZ w)
    (isLocked w).
Definition set_canJump (b : bool) (w : World) : World :=
  mkWorld (moveForward w) (moveBackward w) (moveLeft w) (moveRight w)
    (isSprinting w) b (velocity w) (direction w) (position w) (rightX w)
    (rightZ w) (isLocked w).
Definition set_velocity (v : Vector3) (w : World) : World :=
  mkWorld (moveForward w) (moveBackward w) (moveLeft w) (moveRight w)
    (isSprinting w) (canJump w) v (direction w) (position w) (rightX w)
    (rightZ w) (isLocked w).
Definition set_direction (v : Vector3) (w : World) : World :=
  mkWorld (moveForward w) (moveBackward w) (moveLeft w) (moveRight w)
    (isSprinting w) (canJump w) (velocity w) v (position w) (rightX w)
    (rightZ w) (isLocked w).
Definition set_position (v : Vector3) (w : World) : World :=
  mkWorld (moveForward w) (moveBackward w) (moveLeft w) (moveRight w)
    (isSprinting w) (canJump w) (velocity w) (direction w) v (rightX w)
    (rightZ w) (isLocked w).
Definition set_right (rx rz : N) (w : World) : World :=
  mkWorld (moveForward w) (moveBackward w) (moveLeft w) (moveRight w)
    (isSprinting w) (canJump w) (velocity w) (direction w) (position w) rx rz
    (isLocked w).
Definition set_isLocked (b : bool) (w : World) : World :=
  mkWorld (moveForward w) (moveBackward w) (moveLeft w) (moveRight w)
    (isSprinting w) (canJump w) (velocity w) (direction w) (position w)
    (rightX w) (rightZ w) b.

Definition set_x (a : N) (v : Vector3) : Vector3 := {| x := a; y := y v; z := z v |}.
Definition set_y (a : N) (v : Vector3) : Vector3 := {| x := x v; y := a; z := z v |}.
Definition set_z (a : N) (v : Vector3) : Vector3 := {| x := x v; y := y v; z := a |}.

(** *** Keyboard events (main.js, lines 94-144) *)

Definition onKeyDown (code : string) (w : World) : World :=
  if code =? "KeyW" then set_moveForward true w
  else if code =? "KeyS" then set_moveBackward true w
  else if code =? "KeyA" then set_moveLeft true w
  else if code =? "KeyD" then set_moveRight true w
  else if (code =? "ShiftLeft") || (code =? "ShiftRight") then set_isSprinting true w
  else if code =? "Space" then
    if canJump w
    then set_canJump false (set_velocity (set_y jumpVelocity (velocity w)) w)
    else w
  else w.

Definition onKeyUp (code : string) (w : World) : World :=
  if code =? "KeyW" then set_moveForward false w
  else if code =? "KeyS" then set_moveBackward false w
  else if code =? "KeyA" then set_moveLeft false w
  else if code =? "KeyD" then set_moveRight false w
  else if (code =? "ShiftLeft") || (code =? "ShiftRight") then set_isSprinting false w
  else w.

(** *** The frame callback (main.js, lines 152-198) *)

(** JavaScript's [Number(b)] on a boolean. *)
Definition Number_of_bool (b : bool) : N := if b then lit 1 else lit 0.

(** Lines 159-179: friction, gravity, input direction, acceleration. *)
Definition updateVelocity (delta : N) (w : World) : World :=
  let v := velocity w in
  let v := set_x (x v - x v * lit 10 * delta) v in
  let v := set_z (z v - z v * lit 10 * delta) v in
  let v := set_y (y v - gravity * delta) v in
  let currentSpeed := if isSprinting w then speed * sprintMultiplier else speed in
  let d := direction w in
  let d := set_z (Number_of_bool (moveForward w) - Number_of_bool (moveBackward w)) d in
  let d := set_x (Number_of_bool (moveRight w) - Number_of_bool (moveLeft w)) d in
  let d := normalize d in
  let v := if moveForward w || moveBackward w
           then set_z (z v - z d * currentSpeed * delta) v else v in
  let v := if moveLeft w || moveRight w
           then set_x (x v - x d * currentSpeed * delta) v else v in
  set_direction d (set_velocity v w).

(** Modelled from the spec: [controls.moveRight(distance)] of the external
    pointer-lock controls, the "move right by distance" primitive that
    translates the camera horizontally along its current right vector. *)
Definition controls_moveRight (distance : N) (w : World) : World :=
  let p := position w in
  set_position (set_z (z p + rightZ w * distance)
                 (set_x (x p + rightX w * distance) p)) w.

(** Modelled from the spec: [controls.moveForward(distance)] of the external
    pointer-lock controls, the "move forward by distance" primitive; the
    horizontal forward vector is the camera's up vector (0,1,0) crossed with
    its right vector, that is (rightZ, 0, -rightX). *)
Definition controls_moveForward (distance : N) (w : World) : World :=
  let p := position w in
  set_position (set_z (z p + - rightX w * distance)
                 (set_x (x p + rightZ w * distance) p)) w.

(** Lines 182-186: horizontal translation through the controls, vertical
    translation directly. *)
Definition moveCamera (delta : N) (w : World) : World :=
  let w := controls_moveRight (- x (velocity w) * delta) w in
  let w := controls_moveForward (- z (velocity w) * delta) w in
  set_position (set_y (y (position w) + y (velocity w) * delta) (position w)) w.

(** Lines 189-193: collision with the ground at y = 2. *)
Definition groundClamp (w : World) : World :=
  if y (position w) <? lit 2
  then set_canJump true
         (set_position (set_y (lit 2) (position w))
            (set_velocity (set_y (lit 0) (velocity w)) w))
  else w.

(** The body of [if (controls.isLocked === true)]. *)
Definition integrate (delta : N) (w : World) : World :=
  groundClamp (moveCamera delta (updateVelocity delta w)).

(** [animate], with [delta] the value of [clock.getDelta()]; rendering does
    not touch the state modelled here. *)
Definition animate (delta : N) (w : World) : World :=
  if isLocked w then integrate delta w else w.

(** *** The event loop *)

(** What the page reacts to: key events, a click (which locks the
    pointer), the release of the pointer lock, mouse movement (which the
    controls turn into a new camera orientation, only while locked) and
    the display refresh with the clock's elapsed time. *)
Inductive Event : Type :=
| KeyDown (code : string)
| KeyUp (code : string)
| Click
| Unlock
| MouseLook (rx rz : N)
| Frame (delta : N).

Definition handle (w : World) (e : Event) : World :=
  match e with
  | KeyDown code => onKeyDown code w
  | KeyUp code => onKeyUp code w
  | Click => set_isLocked true w
  | Unlock => set_isLocked false w
  | MouseLook rx rz => if isLocked w then set_right rx rz w else w
  | Frame delta => animate delta w
  end.

Definition run (w : World) (events : list Event) : World :=
  fold_left handle events w.

(** *** Vocabulary of the properties *)

(** The display refresh, as opposed to an input event. *)
Definition is_frame (e : Event) : bool :=
  match e with Frame _ => true | _ => false end.

(** No movement key is held. *)
Definition noMoveFlags (w : World) : bool :=
  negb (moveForward w || moveBackward w || moveLeft w || moveRight w).

(** Magnitude of the lateral (x, z) part of a vector. *)
Definition lateralSpeed (v : Vector3) : N :=
  nsqrt (x v * x v + z v * z v).

End Program.

Arguments Vector3 N : clear implicits.
Arguments World N : clear implicits.
Arguments Event N : clear implicits.

(** ** Reference definitions of the movement specification

    The velocity update as the specification words it, over exact
    arithmetic, to be compared with [updateVelocity]. *)

Module Reference.

Local Open Scope R_scope.

(** Effective speed: the base speed 50, doubled to 100 while sprinting. *)
Definition effectiveSpeed (sprinting : bool) : R :=
  if sprinting then 100 else 50.

Definition axis (positive negative : bool) : R :=
  (if positive then 1 else 0) - (if negative then 1 else 0).

(** The normalised 2D input direction (left/right axis, forward/back
    axis): the zero vector when no flag is set or opposing flags cancel,
    otherwise the flag vector scaled to unit length. *)
Definition inputDirection (forward backward left right : bool) : R * R :=
  let dx := axis right left in
  let dz := axis forward backward in
  if xorb forward backward || xorb left right
  then (dx / sqrt (dx * dx + dz * dz), dz / sqrt (dx * dx + dz * dz))
  else (0, 0).

(** Damping, gravity and additive acceleration. *)
Definition velocityUpdate (w : World R) (dt : R) : Vector3 R :=
  let d := inputDirection (moveForward w) (moveBackward w) (moveLeft w) (moveRight w) in
  let v := velocity w in
  {| x := x v - x v * 10 * dt
          + (if moveLeft w || moveRight w
             then - fst d * effectiveSpeed (isSprinting w) * dt else 0);
     y := y v - 30 * dt;
     z := z v - z v * 10 * dt
          + (if moveForward w || moveBackward w
             then - snd d * effectiveSpeed (isSprinting w) * dt else 0) |}.


End Reference.

(** ** Invariant and scenarios *)

(** What every event preserves: the camera is never under the ground, and
    a raised jump flag means the camera rests on the ground with no
    vertical velocity. *)
Definition grounded_inv (w : World R) : Prop :=
  (2 <= y (position w))%R /\
  (canJump w = true -> y (position w) = 2%R /\ y (velocity w) = 0%R).


(** In flight: pointer locked, jump flag down, at height [h] with vertical
    velocity [v]. *)
Definition airborne (w : World R) (h v : R) : Prop :=
  isLocked w = true /\ canJump w = false /\
  y (position w) = h /\ y (velocity w) = v.

(** A jump whose fall ends exactly on the ground: click, land, press
    Space, then six frames of 1/10 s.  The camera is then at height 2.9
    falling at 6 units/s, and one more frame of 1/10 s brings it to
    2.9 + (-6 - 3)/10 = 2. *)
Definition touchdown : World R :=
  run initial
    ([Click; Frame 1%R; KeyDown "Space"] ++ repeat (Frame (1 / 10)%R) 6).

(** W and D held with the pointer locked: the diagonal input. *)
Definition diagonal : World R :=
  run initial [Click; KeyDown "KeyW"; KeyDown "KeyD"].

(** W and Shift held with the pointer locked: sprinting forward. *)
Definition sprinting : World R :=
  run initial [Click; KeyDown "KeyW"; KeyDown "ShiftLeft"].

(** The same program on binary64: the player has clicked and the first
    frame, one second long, has put the camera on the ground. *)
Definition landed64 : World float :=
  run initial [Click; Frame 1%float].

(** After the pointer lock has been released again. *)
Definition paused64 : World float :=
  run landed64 [Unlock].

(** A jump from the ground followed by [n] frames of 1/64 s. *)
Definition jump64 (n : nat) : World float :=
  run landed64 (KeyDown "Space" :: repeat (Frame (1 / 64)%float) n).

(** The diagonal input on binary64, after one frame of 1/64 s. *)
Definition diagonal64 : World float :=
  run initial [Click; KeyDown "KeyW"; KeyDown "KeyD"; Frame (1 / 64)%float].

(** ** Vocabulary of the further properties *)

(** The key codes [onKeyDown] has a case for, and those [onKeyUp] has. *)
Definition keyDownCodes : list string :=
  ["KeyW"; "KeyS"; "KeyA"; "KeyD"; "ShiftLeft"; "ShiftRight"; "Space"]%string.

Definition keyUpCodes : list string :=
  ["KeyW"; "KeyS"; "KeyA"; "KeyD"; "ShiftLeft"; "ShiftRight"]%string.

(** The events that can write velocity, camera position or [canJump]: a
    frame and a Space key-down. *)
Definition is_motion {N : Type} (e : Event N) : bool :=
  match e with
  | Frame _ => true
  | KeyDown code => String.eqb code "Space"
  | _ => false
  end.

(** Every frame of the event list has a non-negative elapsed time, as
    [clock.getDelta()] delivers it. *)
Definition nonNegativeFrames (events : list (Event R)) : Prop :=
  Forall (fun e => match e with
                   | Frame dt => (0 <= dt)%R
                   | _ => True
                   end) events.




(** The lateral velocity at which friction and the acceleration of the
    held keys balance: -direction * effectiveSpeed / 10 on each axis. *)
Definition cruiseX (w : World R) : R :=
  (- fst (Reference.inputDirection (moveForward w) (moveBackward w)
            (moveLeft w) (moveRight w))
   * Reference.effectiveSpeed (isSprinting w) / 10)%R.

Definition cruiseZ (w : World R) : R :=
  (- snd (Reference.inputDirection (moveForward w) (moveBackward w)
            (moveLeft w) (moveRight w))
   * Reference.effectiveSpeed (isSprinting w) / 10)%R.

(** Every frame of the event list lasts between 0 and 1/10 s. *)
Definition shortFrames (events : list (Event R)) : Prop :=
  Forall (fun e => match e with
                   | Frame dt => (0 <= dt <= 1 / 10)%R
                   | _ => True
                   end) events.

(** Height and vertical velocity after [n] frames of [dt] seconds in free
    flight from height [h] with vertical velocity [v]. *)
Definition flightVelocity (v dt : R) (n : nat) : R :=
  (v - 30 * dt * INR n)%R.

Definition flightHeight (h v dt : R) (n : nat) : R :=
  (h + v * dt * INR n - 15 * dt * dt * INR n * (INR n + 1))%R.

(** ** Properties that hold for every arithmetic *)

Section Generic.

Context {N : Type} `{Number N}.
Local Open Scope string_scope.

Lemma run_app (w : World N) (es1 es2 : list (Event N)) :
  run w (es1 ++ es2) = run (run w es1) es2.
Proof. unfold run. apply fold_left_app. Qed.

Lemma run_cons (w : World N) (e : Event N) (es : list (Event N)) :
  run w (e :: es) = run (handle w e) es.
Proof. reflexivity. Qed.

(** Key handlers never touch the pointer lock, the camera or the
    direction vector. *)
Lemma onKeyDown_frame (code : string) (w : World N) :
  isLocked (onKeyDown code w) = isLocked w /\
  position (onKeyDown code w) = position w /\
  direction (onKeyDown code w) = direction w.
Proof.
  unfold onKeyDown.
  repeat match goal with
         | |- context [if ?c then _ else _] => destruct c
         end; simpl; auto.
Qed.

Lemma onKeyUp_frame (code : string) (w : World N) :
  isLocked (onKeyUp code w) = isLocked w /\
  position (onKeyUp code w) = position w /\
  direction (onKeyUp code w) = direction w /\
  velocity (onKeyUp code w) = velocity w /\
  canJump (onKeyUp code w) = canJump w.
Proof.
  unfold onKeyUp.
  repeat match goal with
         | |- context [if ?c then _ else _] => destruct c
         end; simpl; auto.
Qed.

(** While the jump flag is down, a key press leaves velocity and flag as
    they are. *)
Lemma onKeyDown_airborne (code : string) (w : World N) :
  canJump w = false ->
  canJump (onKeyDown code w) = false /\ velocity (onKeyDown code w) = velocity w.
Proof.
  intros Hj. unfold onKeyDown. rewrite Hj.
  repeat match goal with
         | |- context [if ?c then _ else _] => destruct c
         end; simpl; auto.
Qed.

(** Only the display refresh can raise the jump flag or change velocity
    of an airborne player. *)
Lemma handle_airborne (e : Event N) (w : World N) :
  is_frame e = false -> canJump w = false ->
  canJump (handle w e) = false /\ velocity (handle w e) = velocity w.
Proof.
  intros He Hj. destruct e; simpl in *; try discriminate; auto.
  - now apply onKeyDown_airborne.
  - destruct (onKeyUp_frame code w) as (_ & _ & _ & Hv & Hc).
    rewrite Hv, Hc. auto.
  - destruct (isLocked w); auto.
Qed.

Lemma run_airborne (events : list (Event N)) : forall w : World N,
  forallb (fun e => negb (is_frame e)) events = true ->
  canJump w = false ->
  canJump (run w events) = false /\ velocity (run w events) = velocity w.
Proof.
  induction events as [|e es IH]; intros w Hev Hj; [now split|].
  simpl in Hev. apply andb_true_iff in Hev as [He Hes].
  apply negb_true_iff in He.
  destruct (handle_airborne e w He Hj) as [Hj' Hv'].
  rewrite run_cons. destruct (IH _ Hes Hj') as [Hj'' Hv''].
  split; [assumption | congruence].
Qed.

Lemma onKeyDown_Space_clears (w : World N) :
  canJump (onKeyDown "Space" w) = false /\
  position (onKeyDown "Space" w) = position w /\
  isLocked (onKeyDown "Space" w) = isLocked w /\
  y (velocity (onKeyDown "Space" w)) = (if canJump w then lit 12 else y (velocity w)).
Proof.
  unfold onKeyDown; simpl. destruct (canJump w) eqn:E; simpl; auto.
Qed.

(** C2. A Space key-down while [canJump] is true sets [velocity.y] to the
    jump velocity 12 and clears [canJump]; while [canJump] is false it
    changes nothing.  Hence a repeated Space key-down (a held key) is a
    no-op, and after a Space key-down no sequence of input events raises
    the flag or changes the velocity again: only a frame of the loop (its
    ground clamp) re-arms the jump. *)
Theorem space_key_down_jumps_once (w : World N) :
  onKeyDown "Space" w =
    (if canJump w
     then set_canJump false (set_velocity (set_y (lit 12) (velocity w)) w)
     else w) /\
  canJump (onKeyDown "Space" w) = false /\
  y (velocity (onKeyDown "Space" w)) = (if canJump w then lit 12 else y (velocity w)) /\
  onKeyDown "Space" (onKeyDown "Space" w) = onKeyDown "Space" w /\
  forall events : list (Event N),
    forallb (fun e => negb (is_frame e)) events = true ->
    canJump (run (onKeyDown "Space" w) events) = false /\
    velocity (run (onKeyDown "Space" w) events) = velocity (onKeyDown "Space" w).
Proof.
  assert (Hc : canJump (onKeyDown "Space" w) = false)
    by apply onKeyDown_Space_clears.
  split; [reflexivity|]. split; [exact Hc|].
  split; [unfold onKeyDown; simpl; destruct (canJump w); reflexivity|].
  split.
  - unfold onKeyDown at 1. simpl. now rewrite Hc.
  - intros events Hev. now apply run_airborne.
Qed.

(** C3. A frame in which the pointer is not locked performs no integration:
    [animate] returns the state as it is (velocity, camera position and
    [canJump] included), while key events in that state still set and
    clear the input flags. *)
Theorem unlocked_frame_is_identity (w : World N) (delta : N) :
  isLocked w = false ->
  animate delta w = w /\
  velocity (animate delta w) = velocity w /\
  position (animate delta w) = position w /\
  canJump (animate delta w) = canJump w /\
  moveForward (onKeyDown "KeyW" w) = true /\
  moveBackward (onKeyDown "KeyS" w) = true /\
  moveLeft (onKeyDown "KeyA" w) = true /\
  moveRight (onKeyDown "KeyD" w) = true /\
  isSprinting (onKeyDown "ShiftLeft" w) = true /\
  isSprinting (onKeyDown "ShiftRight" w) = true /\
  moveForward (onKeyUp "KeyW" w) = false /\
  moveBackward (onKeyUp "KeyS" w) = false /\
  moveLeft (onKeyUp "KeyA" w) = false /\
  moveRight (onKeyUp "KeyD" w) = false /\
  isSprinting (onKeyUp "ShiftLeft" w) = false /\
  isSprinting (onKeyUp "ShiftRight" w) = false /\
  forall code, isLocked (onKeyDown code w) = false /\ isLocked (onKeyUp code w) = false.
Proof.
  intros Hl.
  assert (Ha : animate delta w = w) by (unfold animate; now rewrite Hl).
  rewrite Ha. repeat split; try reflexivity.
  - destruct (onKeyDown_frame code w) as [-> _]. exact Hl.
  - destruct (onKeyUp_frame code w) as [-> _]. exact Hl.
Qed.

(** C9. The jump is performed by the key-down handler and is not gated by
    the pointer lock: with the pointer unlocked and [canJump] true, a Space
    key-down still sets [velocity.y] to 12 and clears [canJump], and the
    frames that follow leave that state untouched until the pointer is
    locked again. *)
Theorem jump_not_gated_by_pointer_lock (w : World N) :
  isLocked w = false -> canJump w = true ->
  y (velocity (onKeyDown "Space" w)) = lit 12 /\
  canJump (onKeyDown "Space" w) = false /\
  isLocked (onKeyDown "Space" w) = false /\
  position (onKeyDown "Space" w) = position w /\
  forall deltas : list N,
    run (onKeyDown "Space" w) (map (@Frame N) deltas) = onKeyDown "Space" w.
Proof.
  intros Hl Hj.
  assert (E : onKeyDown "Space" w =
              set_canJump false (set_velocity (set_y (lit 12) (velocity w)) w)).
  { unfold onKeyDown; simpl. now rewrite Hj. }
  rewrite E. simpl. repeat split; auto.
  induction deltas as [|d ds IH]; [reflexivity|].
  simpl map. rewrite run_cons. simpl handle.
  unfold animate at 1. simpl. rewrite Hl. exact IH.
Qed.

(** The integration step leaves the input flags and the pointer lock as
    they are, and only its first phase writes [direction]. *)
Lemma groundClamp_frame (w : World N) :
  direction (groundClamp w) = direction w /\
  isLocked (groundClamp w) = isLocked w /\
  noMoveFlags (groundClamp w) = noMoveFlags w /\
  x (velocity (groundClamp w)) = x (velocity w) /\
  z (velocity (groundClamp w)) = z (velocity w).
Proof. unfold groundClamp. destruct (nlt _ _); simpl; auto. Qed.

Lemma integrate_flags (delta : N) (w : World N) :
  moveForward (integrate delta w) = moveForward w /\
  moveBackward (integrate delta w) = moveBackward w /\
  moveLeft (integrate delta w) = moveLeft w /\
  moveRight (integrate delta w) = moveRight w /\
  isSprinting (integrate delta w) = isSprinting w.
Proof. unfold integrate, groundClamp. destruct (nlt _ _); simpl; auto. Qed.


Lemma updateVelocity_direction (delta : N) (w : World N) :
  direction (updateVelocity delta w) =
  normalize
    (set_x (nsub (Number_of_bool (moveRight w)) (Number_of_bool (moveLeft w)))
       (set_z (nsub (Number_of_bool (moveForward w)) (Number_of_bool (moveBackward w)))
          (direction w))).
Proof. reflexivity. Qed.

Lemma integrate_direction (delta : N) (w : World N) :
  direction (integrate delta w) = direction (updateVelocity delta w).
Proof.
  unfold integrate. destruct (groundClamp_frame (moveCamera delta (updateVelocity delta w))) as [-> _].
  reflexivity.
Qed.

Lemma integrate_frame (delta : N) (w : World N) :
  isLocked (integrate delta w) = isLocked w /\
  noMoveFlags (integrate delta w) = noMoveFlags w /\
  x (velocity (integrate delta w)) = x (velocity (updateVelocity delta w)) /\
  z (velocity (integrate delta w)) = z (velocity (updateVelocity delta w)).
Proof.
  unfold integrate.
  destruct (groundClamp_frame (moveCamera delta (updateVelocity delta w)))
    as (_ & -> & -> & -> & ->).
  repeat split.
Qed.

End Generic.

(** *** The program run on binary64 *)

Section Binary64.

Local Open Scope string_scope.

Lemma space_key_down_jumps_once_witness :
  canJump landed64 = true /\
  y (velocity (onKeyDown "Space" landed64)) = 12%float /\
  forallb (fun e => negb (is_frame e))
    [@KeyDown float "Space"; KeyUp "Space"; Unlock; KeyDown "Space"] = true /\
  canJump (run (onKeyDown "Space" landed64)
             [KeyDown "Space"; KeyUp "Space"; Unlock; KeyDown "Space"]) = false /\
  velocity (run (onKeyDown "Space" landed64)
              [KeyDown "Space"; KeyUp "Space"; Unlock; KeyDown "Space"])
  = velocity (onKeyDown "Space" landed64).
Proof.
  destruct (space_key_down_jumps_once landed64) as (_ & _ & Hv & _ & Hrun).
  split; [vm_compute; reflexivity|].
  split; [rewrite Hv; vm_compute; reflexivity|].
  split; [reflexivity|].
  apply Hrun. reflexivity.
Defined.

Lemma unlocked_frame_is_identity_witness :
  isLocked paused64 = false /\
  animate (1 / 64)%float paused64 = paused64 /\
  moveForward (onKeyDown "KeyW" paused64) = true.
Proof.
  assert (Hl : isLocked paused64 = false) by (vm_compute; reflexivity).
  destruct (unlocked_frame_is_identity paused64 (1 / 64)%float Hl)
    as (Ha & _ & _ & _ & Hw & _).
  split; [exact Hl|]. split; [exact Ha | exact Hw].
Defined.

Lemma jump_not_gated_by_pointer_lock_witness :
  isLocked paused64 = false /\ canJump paused64 = true /\
  y (velocity (onKeyDown "Space" paused64)) = 12%float /\
  canJump (onKeyDown "Space" paused64) = false /\
  run (onKeyDown "Space" paused64)
    (map (@Frame float) [(1 / 64)%float; (1 / 64)%float])
  = onKeyDown "Space" paused64.
Proof.
  assert (Hl : isLocked paused64 = false) by (vm_compute; reflexivity).
  assert (Hj : canJump paused64 = true) by (vm_compute; reflexivity).
  destruct (jump_not_gated_by_pointer_lock paused64 Hl Hj)
    as (Hv & Hc & _ & _ & Hrun).
  split; [exact Hl|]. split; [exact Hj|]. split; [exact Hv|].
  split; [exact Hc | apply Hrun].
Defined.

(** The jump scenario: on the ground and at rest, Space sets the vertical
    velocity to 12 and clears [canJump]; the first frame takes 30/64 off
    the velocity; half-way the player is in the air; after 52 frames the
    camera is back at height 2 with zero vertical velocity and [canJump]
    set. *)
Example jump_scenario_binary64 :
  (y (position landed64) = 2 /\ y (velocity landed64) = 0 /\ canJump landed64 = true)%float /\
  (y (velocity (jump64 0)) = 12 /\ canJump (jump64 0) = false)%float /\
  (y (velocity (jump64 1)) = 12 - 30 / 64)%float /\
  (PrimFloat.ltb 2 (y (position (jump64 25))) = true /\ canJump (jump64 25) = false) /\
  (y (position (jump64 52)) = 2 /\ y (velocity (jump64 52)) = 0 /\ canJump (jump64 52) = true)%float.
Proof. vm_compute. repeat split. Qed.

(** On binary64 the normalised diagonal direction is a unit vector up to
    rounding only: its length is the largest double below 1. *)
Example diagonal_length_binary64 :
  x (direction diagonal64) = z (direction diagonal64) /\
  length (direction diagonal64) = (1 - 0x1p-53)%float /\
  PrimFloat.ltb (length (direction diagonal64)) 1 = true.
Proof. vm_compute. repeat split. Qed.

End Binary64.

(** ** Properties over exact arithmetic *)

Section Exact.

Local Open Scope R_scope.
Local Open Scope string_scope.

Lemma nlt_true (a b : R) : nlt a b = true <-> a < b.
Proof. simpl. destruct (Rlt_dec a b); split; intros; try lra; congruence. Qed.

Lemma nlt_false (a b : R) : nlt a b = false <-> b <= a.
Proof. simpl. destruct (Rlt_dec a b); split; intros; try lra; congruence. Qed.

(** The three phases of the integration step, field by field. *)
Lemma groundClamp_spec (w : World R) :
  (y (position w) < 2 ->
     groundClamp w =
       set_canJump true (set_position (set_y 2 (position w))
                           (set_velocity (set_y 0 (velocity w)) w))) /\
  (2 <= y (position w) -> groundClamp w = w).
Proof.
  unfold groundClamp. change (@lit R _ 2%Z) with 2. split; intros Hy.
  - apply nlt_true in Hy. now rewrite Hy.
  - apply nlt_false in Hy. now rewrite Hy.
Qed.

Lemma groundClamp_height (w : World R) : 2 <= y (position (groundClamp w)).
Proof.
  destruct (Rlt_dec (y (position w)) 2) as [Hlt|Hge].
  - rewrite (proj1 (groundClamp_spec w) Hlt). simpl. lra.
  - rewrite (proj2 (groundClamp_spec w)); lra.
Qed.

Lemma moveCamera_fields (delta : R) (w : World R) :
  y (position (moveCamera delta w)) = y (position w) + y (velocity w) * delta /\
  velocity (moveCamera delta w) = velocity w /\
  canJump (moveCamera delta w) = canJump w /\
  direction (moveCamera delta w) = direction w.
Proof. unfold moveCamera. simpl. auto. Qed.

Lemma updateVelocity_fields (delta : R) (w : World R) :
  y (velocity (updateVelocity delta w)) = y (velocity w) - 30 * delta /\
  position (updateVelocity delta w) = position w /\
  canJump (updateVelocity delta w) = canJump w.
Proof.
  unfold updateVelocity.
  destruct (moveForward w || moveBackward w), (moveLeft w || moveRight w);
    simpl; auto.
Qed.

(** Height of the camera after the vertical update, before the clamp. *)
Lemma height_before_clamp (delta : R) (w : World R) :
  y (position (moveCamera delta (updateVelocity delta w))) =
  y (position w) + (y (velocity w) - 30 * delta) * delta.
Proof.
  destruct (moveCamera_fields delta (updateVelocity delta w)) as (-> & _).
  destruct (updateVelocity_fields delta w) as (-> & -> & _). reflexivity.
Qed.

Lemma integrate_inv (delta : R) (w : World R) :
  grounded_inv w -> grounded_inv (integrate delta w).
Proof.
  intros [Hy Hj]. unfold integrate.
  set (w1 := moveCamera delta (updateVelocity delta w)).
  assert (Hh : y (position w1) = y (position w) + (y (velocity w) - 30 * delta) * delta)
    by apply height_before_clamp.
  assert (Hv : y (velocity w1) = y (velocity w) - 30 * delta).
  { unfold w1. destruct (moveCamera_fields delta (updateVelocity delta w)) as (_ & -> & _).
    apply updateVelocity_fields. }
  assert (Hc : canJump w1 = canJump w).
  { unfold w1. destruct (moveCamera_fields delta (updateVelocity delta w)) as (_ & _ & -> & _).
    apply updateVelocity_fields. }
  destruct (Rlt_dec (y (position w1)) 2) as [Hlt|Hge].
  - rewrite (proj1 (groundClamp_spec w1) Hlt). unfold grounded_inv. simpl.
    split; [lra | auto].
  - rewrite (proj2 (groundClamp_spec w1)) by lra.
    split; [lra|]. rewrite Hc. intros Hj'. destruct (Hj Hj') as [Hy2 Hv0].
    rewrite Hh, Hv, Hy2, Hv0 in *.
    assert (delta = 0) by nra. subst delta. split; lra.
Qed.

Lemma handle_inv (e : Event R) (w : World R) :
  grounded_inv w -> grounded_inv (handle w e).
Proof.
  intros Hinv. destruct e; simpl.
  - destruct Hinv as [Hy Hj]. unfold grounded_inv.
    destruct (onKeyDown_frame code w) as (_ & -> & _). split; [exact Hy|].
    unfold onKeyDown.
    repeat match goal with
           | |- context [if ?c then _ else _] => destruct c eqn:?
           end; simpl; auto; intros; congruence.
  - destruct Hinv as [Hy Hj]. unfold grounded_inv.
    destruct (onKeyUp_frame code w) as (_ & -> & _ & -> & ->). auto.
  - exact Hinv.
  - exact Hinv.
  - destruct (isLocked w); exact Hinv.
  - unfold animate. destruct (isLocked w); [now apply integrate_inv | exact Hinv].
Qed.

Lemma initial_inv : grounded_inv (@initial R _).
Proof. unfold grounded_inv. simpl. split; [lra | discriminate]. Qed.

Lemma run_inv (events : list (Event R)) : forall w : World R,
  grounded_inv w -> grounded_inv (run w events).
Proof.
  induction events as [|e es IH]; intros w Hinv; [exact Hinv|].
  rewrite run_cons. apply IH. now apply handle_inv.
Qed.

(** A step whose vertical update ends under the ground is clamped. *)
Lemma integrate_lands (delta : R) (w : World R) :
  y (position w) + (y (velocity w) - 30 * delta) * delta < 2 ->
  canJump (integrate delta w) = true /\
  y (position (integrate delta w)) = 2 /\
  y (velocity (integrate delta w)) = 0.
Proof.
  intros Hlt. rewrite <- height_before_clamp in Hlt. unfold integrate.
  rewrite (proj1 (groundClamp_spec _) Hlt). simpl. auto.
Qed.

(** A step whose vertical update ends at or above the ground is not. *)
Lemma integrate_flies (delta : R) (w : World R) :
  2 <= y (position w) + (y (velocity w) - 30 * delta) * delta ->
  integrate delta w = moveCamera delta (updateVelocity delta w).
Proof.
  intros Hge. rewrite <- height_before_clamp in Hge. unfold integrate.
  now rewrite (proj2 (groundClamp_spec _) Hge).
Qed.

(** C1. After every integration step the camera is at height 2 or above,
    whatever the state and the frame time: when the vertical update leaves
    [position.y] below 2 the step sets [velocity.y] to 0, [position.y] to 2
    and [canJump] to true.  Consequently no sequence of events leads to a
    state with the camera under the ground. *)
Theorem height_never_below_ground :
  (forall (w : World R) (delta : R),
     2 <= y (position (integrate delta w)) /\
     (isLocked w = true -> 2 <= y (position (animate delta w))) /\
     (y (position (moveCamera delta (updateVelocity delta w))) < 2 ->
        y (velocity (integrate delta w)) = 0 /\
        y (position (integrate delta w)) = 2 /\
        canJump (integrate delta w) = true)) /\
  (forall events : list (Event R), 2 <= y (position (run initial events))).
Proof.
  split.
  - intros w delta. split; [apply groundClamp_height|]. split.
    + intros Hl. unfold animate. rewrite Hl. apply groundClamp_height.
    + intros Hlt. unfold integrate.
      rewrite (proj1 (groundClamp_spec _) Hlt). simpl. auto.
  - intros events. apply (run_inv events _ initial_inv).
Qed.

Lemma height_never_below_ground_witness :
  isLocked (set_isLocked true (@initial R _)) = true /\
  y (position (moveCamera 1 (updateVelocity 1 (set_isLocked true (@initial R _))))) < 2 /\
  2 <= y (position (animate 1 (set_isLocked true (@initial R _)))) /\
  y (velocity (integrate 1 (set_isLocked true (@initial R _)))) = 0 /\
  y (position (integrate 1 (set_isLocked true (@initial R _)))) = 2 /\
  canJump (integrate 1 (set_isLocked true (@initial R _))) = true.
Proof.
  assert (Hlt : y (position (moveCamera 1 (updateVelocity 1 (set_isLocked true (@initial R _))))) < 2).
  { rewrite height_before_clamp. simpl. lra. }
  destruct height_never_below_ground as [Hstep _].
  destruct (Hstep (set_isLocked true (@initial R _)) 1) as (_ & Hanim & Hclamp).
  split; [reflexivity|]. split; [exact Hlt|].
  split; [apply Hanim; reflexivity | apply Hclamp; exact Hlt].
Defined.

(** C4 (as the code has it). In every state reachable from the initial one
    by key events, clicks, mouse moves and frames with non-negative elapsed
    time, a true [canJump] flag implies that the camera is at the ground
    height 2.  The converse is not an invariant. *)
Theorem can_jump_implies_on_ground (events : list (Event R)) :
  nonNegativeFrames events ->
  canJump (run initial events) = true ->
  y (position (run initial events)) = 2.
Proof.
  intros _ Hj. destruct (run_inv events _ initial_inv) as [_ Himp].
  now apply Himp.
Qed.

Lemma run_click_frame :
  canJump (run (@initial R _) [Click; Frame 1]) = true.
Proof.
  unfold run. simpl fold_left. unfold animate. simpl isLocked. cbv iota.
  apply integrate_lands. simpl. lra.
Qed.

Lemma can_jump_implies_on_ground_witness :
  nonNegativeFrames [Click; Frame 1] /\
  canJump (run (@initial R _) [Click; Frame 1]) = true /\
  y (position (run (@initial R _) [Click; Frame 1])) = 2.
Proof.
  assert (Hn : nonNegativeFrames [Click; Frame 1])
    by (unfold nonNegativeFrames; repeat constructor; lra).
  split; [exact Hn|]. split; [exact run_click_frame|].
  apply (can_jump_implies_on_ground [Click; Frame 1] Hn). exact run_click_frame.
Defined.

(** One frame of flight that stays at or above the ground. *)
Lemma flight_frame (w : World R) (h v dt : R) :
  airborne w h v -> 2 <= h + (v - 30 * dt) * dt ->
  airborne (handle w (Frame dt)) (h + (v - 30 * dt) * dt) (v - 30 * dt).
Proof.
  intros (Hl & Hj & Hh & Hv) Hge. simpl handle. unfold animate. rewrite Hl.
  destruct (integrate_frame dt w) as (Hl' & _).
  assert (E : integrate dt w = moveCamera dt (updateVelocity dt w))
    by (apply integrate_flies; rewrite Hh, Hv; exact Hge).
  split; [congruence|]. rewrite E.
  rewrite height_before_clamp.
  destruct (moveCamera_fields dt (updateVelocity dt w)) as (_ & -> & -> & _).
  destruct (updateVelocity_fields dt w) as (-> & _ & ->).
  rewrite Hh, Hv. auto.
Qed.

Lemma airborne_ext (w : World R) (h v h' v' : R) :
  airborne w h v -> h = h' -> v = v' -> airborne w h' v'.
Proof. intros Ha <- <-. exact Ha. Qed.

Lemma jumped_state :
  airborne (run (@initial R _) [Click; Frame 1; KeyDown "Space"]) 2 12.
Proof.
  unfold run. simpl fold_left. unfold animate. simpl isLocked. cbv iota.
  set (w := integrate 1 (set_isLocked true initial)).
  assert (Hland : canJump w = true /\ y (position w) = 2 /\ y (velocity w) = 0)
    by (apply integrate_lands; simpl; lra).
  destruct Hland as (Hj & Hy & _).
  assert (Hl : isLocked w = true) by apply integrate_frame.
  destruct (onKeyDown_Space_clears w) as (Hc & Hp & Hl' & Hv).
  unfold airborne. rewrite Hc, Hp, Hl', Hv, Hj. auto.
Qed.

Lemma touchdown_state : airborne touchdown (29 / 10) (-6).
Proof.
  unfold touchdown. rewrite run_app. simpl repeat.
  pose proof jumped_state as H0.
  set (w0 := run initial [Click; Frame 1; KeyDown "Space"]) in *.
  do 6 (rewrite run_cons;
        match goal with
        | Ha : airborne ?w ?h ?v |- airborne (run (handle ?w (Frame ?dt)) _) _ _ =>
            let Hn := fresh "Ha" in
            assert (Hn : airborne (handle w (Frame dt))
                           (h + (v - 30 * dt) * dt) (v - 30 * dt))
              by (apply flight_frame; [exact Ha | lra]);
            clear Ha
        end).
  simpl run. eapply airborne_ext; [eassumption | lra | lra].
Qed.

(** C4, the claim as stated fails: in the initial state the camera is at
    height 2 while [canJump] is false; right after a Space key-down the
    camera is still at height 2 while the flag has been cleared; and a fall
    that ends at exactly 2 leaves the camera on the ground with the flag
    still false after that integration step. *)
Lemma can_jump_iff_on_ground_fails :
  (y (position (run (@initial R _) [])) = 2 /\
   canJump (run (@initial R _) []) = false) /\
  (y (position (run (@initial R _) [Click; Frame 1; KeyDown "Space"])) = 2 /\
   canJump (run (@initial R _) [Click; Frame 1; KeyDown "Space"]) = false) /\
  (y (position (run touchdown [Frame (1 / 10)])) = 2 /\
   canJump (run touchdown [Frame (1 / 10)]) = false).
Proof.
  split; [split; reflexivity|]. split.
  - destruct jumped_state as (_ & Hj & Hy & _). split; assumption.
  - assert (Ha : airborne (handle touchdown (Frame (1 / 10)))
                   (29 / 10 + (-6 - 30 * (1 / 10)) * (1 / 10)) (-6 - 30 * (1 / 10)))
      by (apply flight_frame; [exact touchdown_state | lra]).
    destruct Ha as (_ & Hj & Hy & _).
    change (run touchdown [Frame (1 / 10)]) with (handle touchdown (Frame (1 / 10))).
    split; [rewrite Hy; lra | exact Hj].
Qed.

(** C10. The ground clamp tests [position.y < 2] strictly.  When the
    vertical update leaves the camera at exactly 2 or above, the clamp does
    nothing in that step: [velocity.y] keeps the value gravity gave it and
    [canJump] is not touched.  [canJump] turns from false to true only
    through a frame, with the pointer locked, whose vertical update ends
    strictly below 2. *)
Theorem ground_clamp_is_strict (w : World R) (delta : R) :
  (2 <= y (position (moveCamera delta (updateVelocity delta w))) ->
     integrate delta w = moveCamera delta (updateVelocity delta w) /\
     y (position (integrate delta w)) =
       y (position w) + (y (velocity w) - 30 * delta) * delta /\
     y (velocity (integrate delta w)) = y (velocity w) - 30 * delta /\
     canJump (integrate delta w) = canJump w) /\
  (forall e : Event R,
     canJump w = false -> canJump (handle w e) = true ->
     exists dt : R,
       e = Frame dt /\ isLocked w = true /\
       y (position (moveCamera dt (updateVelocity dt w))) < 2).
Proof.
  split.
  - intros Hge.
    assert (E : integrate delta w = moveCamera delta (updateVelocity delta w)).
    { unfold integrate. now rewrite (proj2 (groundClamp_spec _) Hge). }
    rewrite E. split; [reflexivity|]. split; [apply height_before_clamp|].
    destruct (moveCamera_fields delta (updateVelocity delta w)) as (_ & -> & -> & _).
    destruct (updateVelocity_fields delta w) as (-> & _ & ->). auto.
  - intros e Hj Hj'. destruct (is_frame e) eqn:He.
    + destruct e as [c|c| | |rx rz|dt]; try discriminate.
      exists dt. split; [reflexivity|].
      simpl in Hj'. unfold animate in Hj'.
      destruct (isLocked w); [|congruence]. split; [reflexivity|].
      destruct (Rlt_dec (y (position (moveCamera dt (updateVelocity dt w)))) 2)
        as [Hlt|Hge]; [exact Hlt|].
      exfalso. unfold integrate in Hj'.
      rewrite (proj2 (groundClamp_spec _)) in Hj' by lra.
      destruct (moveCamera_fields dt (updateVelocity dt w)) as (_ & _ & Hc & _).
      destruct (updateVelocity_fields dt w) as (_ & _ & Hc').
      congruence.
    + destruct (handle_airborne e w He Hj) as [Hf _]. congruence.
Qed.

(** *** The input direction *)

Lemma truthy_nonzero (a : R) : truthy a = true <-> a <> 0.
Proof. simpl. destruct (Req_dec_T a 0); split; intros; congruence. Qed.

Lemma length_sqr (v : Vector3 R) :
  length v * length v = x v * x v + y v * y v + z v * z v.
Proof. unfold length. simpl. apply sqrt_sqrt. nra. Qed.

Lemma normalize_nonzero (v : Vector3 R) :
  length v <> 0 -> normalize v = multiplyScalar v (1 / length v).
Proof.
  intros Hl. unfold normalize, divideScalar.
  apply truthy_nonzero in Hl. now rewrite Hl.
Qed.

Lemma normalize_zero (v : Vector3 R) :
  length v = 0 -> normalize v = v.
Proof.
  intros Hl. unfold normalize, divideScalar. rewrite Hl.
  assert (Ht : truthy (0:R) = false) by (simpl; destruct (Req_dec_T 0 0); congruence).
  rewrite Ht. pose proof (length_sqr v) as Hs. rewrite Hl in Hs.
  destruct v as [a b c]. simpl in *.
  assert (a = 0) by nra. assert (b = 0) by nra. assert (c = 0) by nra. subst.
  unfold multiplyScalar. simpl. f_equal; lra.
Qed.

(** [normalize] yields a unit vector from any vector of non-zero length. *)
Lemma length_normalize (v : Vector3 R) :
  length v <> 0 -> length (normalize v) = 1.
Proof.
  intros Hl. rewrite (normalize_nonzero v Hl).
  pose proof (length_sqr v) as Hs. set (l := length v) in *.
  unfold length at 1, multiplyScalar. simpl.
  replace (x v * (1 / l) * (x v * (1 / l)) + y v * (1 / l) * (y v * (1 / l))
           + z v * (1 / l) * (z v * (1 / l)))
    with ((x v * x v + y v * y v + z v * z v) * (/ l * / l))
    by (unfold Rdiv; ring).
  rewrite <- Hs. replace (l * l * (/ l * / l)) with 1 by (field; exact Hl).
  apply sqrt_1.
Qed.

(** The flag vector the frame writes into [direction] before normalising:
    its x and z are in {-1, 0, 1}. *)
Lemma axis_sqr (p n : bool) :
  Reference.axis p n * Reference.axis p n = if xorb p n then 1 else 0.
Proof. destruct p, n; unfold Reference.axis; simpl; lra. Qed.

(** The direction of a frame, in terms of the reference input direction. *)
Lemma direction_reference (delta : R) (w : World R) :
  y (direction w) = 0 ->
  let d := direction (updateVelocity delta w) in
  let r := Reference.inputDirection (moveForward w) (moveBackward w)
             (moveLeft w) (moveRight w) in
  x d = fst r /\ y d = 0 /\ z d = snd r.
Proof.
  intros Hy. cbv zeta. rewrite updateVelocity_direction.
  change (nsub (Number_of_bool (moveRight w)) (Number_of_bool (moveLeft w)))
    with (Reference.axis (moveRight w) (moveLeft w)).
  change (nsub (Number_of_bool (moveForward w)) (Number_of_bool (moveBackward w)))
    with (Reference.axis (moveForward w) (moveBackward w)).
  set (dx := Reference.axis (moveRight w) (moveLeft w)).
  set (dz := Reference.axis (moveForward w) (moveBackward w)).
  set (v := set_x dx (set_z dz (direction w))).
  assert (Hl2 : length v * length v = dx * dx + dz * dz).
  { rewrite length_sqr. unfold v. simpl. rewrite Hy. ring. }
  assert (Hl : length v = sqrt (dx * dx + dz * dz)).
  { unfold length, v. simpl. rewrite Hy. f_equal. ring. }
  unfold Reference.inputDirection. fold dx dz.
  pose proof (axis_sqr (moveRight w) (moveLeft w)) as Hx.
  pose proof (axis_sqr (moveForward w) (moveBackward w)) as Hz.
  fold dx in Hx. fold dz in Hz.
  destruct (xorb (moveForward w) (moveBackward w)) eqn:Ef;
    destruct (xorb (moveLeft w) (moveRight w)) eqn:El;
    rewrite ?(xorb_comm (moveRight w)), ?El in Hx; simpl orb; cbv iota.
  4: { assert (length v = 0) by nra. rewrite normalize_zero by assumption.
       unfold v. simpl. repeat split; nra. }
  all: assert (Hnz : length v <> 0) by nra;
    rewrite (normalize_nonzero v Hnz); rewrite Hl; unfold v, multiplyScalar; simpl;
    rewrite Hy; repeat split; unfold Rdiv; ring.
Qed.

Lemma direction_length (delta : R) (w : World R) :
  y (direction w) = 0 ->
  xorb (moveForward w) (moveBackward w) || xorb (moveLeft w) (moveRight w) = true ->
  length (direction (updateVelocity delta w)) = 1.
Proof.
  intros Hy Hf. rewrite updateVelocity_direction. apply length_normalize.
  intros Hl.
  pose proof (length_sqr (set_x (nsub (Number_of_bool (moveRight w)) (Number_of_bool (moveLeft w)))
       (set_z (nsub (Number_of_bool (moveForward w)) (Number_of_bool (moveBackward w)))
          (direction w)))) as Hs.
  rewrite Hl in Hs. simpl in Hs. rewrite Hy in Hs.
  destruct (moveForward w), (moveBackward w), (moveLeft w), (moveRight w);
    simpl in Hf, Hs; try discriminate; lra.
Qed.

(** [direction.y] is never written with anything but a multiple of itself,
    so it stays at its initial 0. *)
Lemma handle_direction_y (e : Event R) (w : World R) :
  y (direction w) = 0 -> y (direction (handle w e)) = 0.
Proof.
  intros Hy. destruct e; simpl.
  - destruct (onKeyDown_frame code w) as (_ & _ & ->). exact Hy.
  - destruct (onKeyUp_frame code w) as (_ & _ & -> & _). exact Hy.
  - exact Hy.
  - exact Hy.
  - destruct (isLocked w); exact Hy.
  - unfold animate. destruct (isLocked w); [|exact Hy].
    rewrite integrate_direction. now apply direction_reference.
Qed.

Lemma run_direction_y (events : list (Event R)) : forall w : World R,
  y (direction w) = 0 -> y (direction (run w events)) = 0.
Proof.
  induction events as [|e es IH]; intros w Hy; [exact Hy|].
  rewrite run_cons. apply IH. now apply handle_direction_y.
Qed.

Lemma reachable_direction_y (events : list (Event R)) :
  y (direction (run initial events)) = 0.
Proof. apply run_direction_y. reflexivity. Qed.

(** C6. The input direction a frame computes from the four movement flags
    has unit length whenever the flags of at least one axis do not cancel
    (forward+right gives (1/sqrt 2, 1/sqrt 2), of length 1), and is the zero
    vector when no flag is set or opposing flags cancel on both axes. *)
Theorem input_direction_unit_or_zero (w : World R) (delta : R) :
  y (direction w) = 0 ->
  (xorb (moveForward w) (moveBackward w) || xorb (moveLeft w) (moveRight w) = true ->
     length (direction (integrate delta w)) = 1 /\
     lateralSpeed (direction (integrate delta w)) = 1) /\
  (xorb (moveForward w) (moveBackward w) || xorb (moveLeft w) (moveRight w) = false ->
     direction (integrate delta w) = {| x := 0; y := 0; z := 0 |}) /\
  (moveForward w = true -> moveRight w = true ->
   moveBackward w = false -> moveLeft w = false ->
     x (direction (integrate delta w)) = 1 / sqrt 2 /\
     z (direction (integrate delta w)) = 1 / sqrt 2).
Proof.
  intros Hy. rewrite integrate_direction.
  destruct (direction_reference delta w Hy) as (Hx & Hy' & Hz). cbv zeta in *.
  split; [|split].
  - intros Hf. pose proof (direction_length delta w Hy Hf) as Hl.
    split; [exact Hl|]. rewrite <- Hl.
    destruct (direction (updateVelocity delta w)) as [a b c]. simpl in Hy'. subst b.
    unfold lateralSpeed, length. simpl. f_equal. ring.
  - intros Hf. unfold Reference.inputDirection in Hx, Hz. rewrite Hf in Hx, Hz.
    destruct (direction (updateVelocity delta w)) as [a b c]. simpl in *.
    now subst.
  - intros Hf Hr Hb Hl. rewrite Hx, Hz, Hf, Hr, Hb, Hl.
    unfold Reference.inputDirection, Reference.axis. simpl.
    replace ((1 - 0) * (1 - 0) + (1 - 0) * (1 - 0)) with 2 by lra.
    split; lra.
Qed.

(** The velocity [updateVelocity] computes is the reference update. *)
Lemma updateVelocity_reference (delta : R) (w : World R) :
  y (direction w) = 0 ->
  velocity (updateVelocity delta w) = Reference.velocityUpdate w delta.
Proof.
  intros Hy. destruct (direction_reference delta w Hy) as (Hx & _ & Hz).
  cbv zeta in Hx, Hz. rewrite updateVelocity_direction in Hx, Hz.
  unfold updateVelocity, Reference.velocityUpdate, Reference.effectiveSpeed.
  cbv zeta.
  remember (Reference.inputDirection (moveForward w) (moveBackward w)
              (moveLeft w) (moveRight w)) as r eqn:Er.
  remember (normalize _) as d eqn:Ed. clear Er Ed.
  destruct (velocity w) as [vx vy vz].
  destruct (moveForward w || moveBackward w), (moveLeft w || moveRight w),
    (isSprinting w); simpl; rewrite ?Hx, ?Hz; unfold set_x, set_y, set_z; simpl;
    f_equal; ring.
Qed.

(** C7. In a frame with the pointer locked the velocity update (lines
    158-179) equals the reference definition: each lateral component is
    reduced by component*10*dt, the vertical velocity is reduced by 30*dt
    whether grounded or not, and for each axis whose flag pair is active
    -direction.axis * effectiveSpeed * dt is added, with effectiveSpeed 50,
    or 100 while sprinting.  The rest of the step keeps the lateral
    components, and keeps the vertical one unless the ground clamp resets
    it to 0. *)
Theorem velocity_update_matches_reference (w : World R) (delta : R) :
  y (direction w) = 0 ->
  velocity (updateVelocity delta w) = Reference.velocityUpdate w delta /\
  x (velocity (integrate delta w)) = x (Reference.velocityUpdate w delta) /\
  z (velocity (integrate delta w)) = z (Reference.velocityUpdate w delta) /\
  (2 <= y (position w) + y (Reference.velocityUpdate w delta) * delta ->
     y (velocity (integrate delta w)) = y (Reference.velocityUpdate w delta)) /\
  (y (position w) + y (Reference.velocityUpdate w delta) * delta < 2 ->
     y (velocity (integrate delta w)) = 0).
Proof.
  intros Hy. pose proof (updateVelocity_reference delta w Hy) as E.
  destruct (integrate_frame delta w) as (_ & _ & Hx & Hz).
  rewrite Hx, Hz, E. repeat split.
  - intros Hge. rewrite integrate_flies by exact Hge.
    destruct (moveCamera_fields delta (updateVelocity delta w)) as (_ & -> & _).
    now rewrite E.
  - intros Hlt. now apply integrate_lands.
Qed.

(** *** Friction *)


Lemma lateralSpeed_eq (v : Vector3 R) :
  lateralSpeed v = sqrt (x v * x v + z v * z v).
Proof. reflexivity. Qed.











(** *** Instances of the properties above *)

Lemma input_direction_unit_or_zero_witness :
  y (direction diagonal) = 0 /\
  length (direction (integrate (1 / 60) diagonal)) = 1 /\
  lateralSpeed (direction (integrate (1 / 60) diagonal)) = 1 /\
  x (direction (integrate (1 / 60) diagonal)) = 1 / sqrt 2 /\
  z (direction (integrate (1 / 60) diagonal)) = 1 / sqrt 2 /\
  direction (integrate (1 / 60) (@initial R _)) = {| x := 0; y := 0; z := 0 |}.
Proof.
  destruct (input_direction_unit_or_zero diagonal (1 / 60) eq_refl)
    as (Hunit & _ & Hdiag).
  destruct (input_direction_unit_or_zero (@initial R RNumber) (1 / 60) eq_refl)
    as (_ & Hzero & _).
  split; [reflexivity|].
  split; [apply Hunit; reflexivity|].
  split; [apply Hunit; reflexivity|].
  split; [apply Hdiag; reflexivity|].
  split; [apply Hdiag; reflexivity|].
  apply Hzero; reflexivity.
Defined.

Lemma velocity_update_matches_reference_witness :
  y (direction sprinting) = 0 /\
  velocity (updateVelocity (1 / 60) sprinting) =
    Reference.velocityUpdate sprinting (1 / 60) /\
  z (velocity (integrate (1 / 60) sprinting)) =
    z (Reference.velocityUpdate sprinting (1 / 60)).
Proof.
  destruct (velocity_update_matches_reference sprinting (1 / 60) eq_refl)
    as (Hv & _ & Hz & _).
  split; [reflexivity|]. split; [exact Hv | exact Hz].
Defined.

Lemma ground_clamp_is_strict_witness :
  2 <= y (position (moveCamera (1 / 10) (updateVelocity (1 / 10) touchdown))) /\
  y (position (integrate (1 / 10) touchdown)) = 2 /\
  y (velocity (integrate (1 / 10) touchdown)) = -9 /\
  canJump (integrate (1 / 10) touchdown) = false.
Proof.
  destruct touchdown_state as (_ & Hj & Hh & Hv).
  assert (Hge : 2 <= y (position (moveCamera (1 / 10) (updateVelocity (1 / 10) touchdown)))).
  { rewrite height_before_clamp, Hh, Hv. lra. }
  destruct (ground_clamp_is_strict touchdown (1 / 10)) as [Hstrict _].
  destruct (Hstrict Hge) as (_ & Hy' & Hv' & Hc').
  split; [exact Hge|]. rewrite Hy', Hv', Hc', Hh, Hv, Hj. repeat split; lra.
Defined.

End Exact.

(** ** Further properties of the key handlers and the frame, for every
    arithmetic *)

Section Handlers.

Context {N : Type} `{Number N}.
Local Open Scope string_scope.

Ltac key_cases c :=
  destruct (String.eqb c "KeyW") eqn:?;
  [|destruct (String.eqb c "KeyS") eqn:?;
    [|destruct (String.eqb c "KeyA") eqn:?;
      [|destruct (String.eqb c "KeyD") eqn:?;
        [|destruct (String.eqb c "ShiftLeft") eqn:?;
          [|destruct (String.eqb c "ShiftRight") eqn:?;
            [|destruct (String.eqb c "Space") eqn:?]]]]]];
  cbn [orb].

Lemma not_in_cons (c a : string) (l : list string) :
  ~ In c (a :: l) -> String.eqb c a = false /\ ~ In c l.
Proof.
  intros Hn. split.
  - apply String.eqb_neq. intros ->. apply Hn. now left.
  - intros Hi. apply Hn. now right.
Qed.

(** X1. A key-down or key-up with a code the handler has no case for (the
    [default] branch) leaves the whole state as it is; in particular a
    Space key-up does nothing. *)
Theorem unknown_key_is_ignored (code : string) (w : World N) :
  (~ In code keyDownCodes -> onKeyDown code w = w) /\
  (~ In code keyUpCodes -> onKeyUp code w = w).
Proof.
  split; intros Hn; unfold keyDownCodes, keyUpCodes in Hn;
    repeat match type of Hn with
           | ~ In _ (_ :: _) =>
               let E := fresh "E" in
               apply not_in_cons in Hn; destruct Hn as [E Hn]
           end.
  - unfold onKeyDown. now rewrite E, E0, E1, E2, E3, E4, E5.
  - unfold onKeyUp. now rewrite E, E0, E1, E2, E3, E4.
Qed.

(** X2. Both handlers are idempotent for every key code: the repeated
    key-down events of a held key (and a repeated key-up) change nothing
    after the first. *)
Theorem key_repeat_is_idempotent (code : string) (w : World N) :
  onKeyDown code (onKeyDown code w) = onKeyDown code w /\
  onKeyUp code (onKeyUp code w) = onKeyUp code w.
Proof.
  split.
  - unfold onKeyDown. key_cases code; try reflexivity.
    destruct (canJump w) eqn:Hj; simpl; [reflexivity | now rewrite Hj].
  - unfold onKeyUp. key_cases code; reflexivity.
Qed.

(** X3. Key-down handlers commute: the state after two key presses does
    not depend on the order in which they arrive. *)
Theorem key_downs_commute (a b : string) (w : World N) :
  onKeyDown a (onKeyDown b w) = onKeyDown b (onKeyDown a w).
Proof.
  unfold onKeyDown.
  key_cases a; key_cases b; simpl; try reflexivity;
    destruct (canJump w); reflexivity.
Qed.

(** X4. The last event on a key wins: a key-up after a key-down of the same
    code gives the state of the key-up alone, for every code but Space
    (whose key-down jumps and whose key-up is ignored), and a key-down after
    a key-up of the same code gives the state of the key-down alone, for
    every code. *)
Theorem last_key_event_wins (code : string) (w : World N) :
  (code <> "Space" -> onKeyUp code (onKeyDown code w) = onKeyUp code w) /\
  onKeyDown code (onKeyUp code w) = onKeyDown code w.
Proof.
  split.
  - intros Hs. apply String.eqb_neq in Hs.
    unfold onKeyUp, onKeyDown. rewrite Hs. key_cases code; reflexivity.
  - unfold onKeyUp, onKeyDown. key_cases code; reflexivity.
Qed.

(** X5. The two Shift keys share one sprint flag: releasing either of them
    clears [isSprinting] even while the other is still held, and the state
    is the one the release alone would give. *)
Theorem sprint_flag_is_shared (a b : string) (w : World N) :
  In a ["ShiftLeft"; "ShiftRight"] -> In b ["ShiftLeft"; "ShiftRight"] ->
  isSprinting (onKeyDown b w) = true /\
  isSprinting (onKeyUp a (onKeyDown b w)) = false /\
  onKeyUp a (onKeyDown b w) = onKeyUp a w.
Proof.
  intros Ha Hb. simpl in Ha, Hb.
  destruct Ha as [<-|[<-|[]]]; destruct Hb as [<-|[<-|[]]];
    repeat split; reflexivity.
Qed.

(** X6. A frame never writes the input flags, the pointer lock or the
    orientation of the camera: whatever the elapsed time, [animate] returns
    them as it found them. *)
Theorem frame_keeps_inputs (delta : N) (w : World N) :
  moveForward (animate delta w) = moveForward w /\
  moveBackward (animate delta w) = moveBackward w /\
  moveLeft (animate delta w) = moveLeft w /\
  moveRight (animate delta w) = moveRight w /\
  isSprinting (animate delta w) = isSprinting w /\
  isLocked (animate delta w) = isLocked w /\
  rightX (animate delta w) = rightX w /\
  rightZ (animate delta w) = rightZ w.
Proof.
  unfold animate. destruct (isLocked w) eqn:Hl; [|now rewrite Hl].
  unfold integrate, groundClamp. destruct (nlt _ _); simpl; auto 10.
Qed.

Lemma handle_still (e : Event N) (w : World N) :
  is_motion e = false ->
  velocity (handle w e) = velocity w /\
  position (handle w e) = position w /\
  canJump (handle w e) = canJump w /\
  direction (handle w e) = direction w.
Proof.
  intros He. destruct e as [c|c| | |rx rz|dt]; simpl in *; try discriminate; auto.
  - unfold onKeyDown. rewrite He. key_cases c; simpl; auto.
  - unfold onKeyUp. key_cases c; simpl; auto.
  - destruct (isLocked w); simpl; auto.
Qed.

(** X7. Only a frame or a Space key-down can write velocity, camera
    position, [direction] or [canJump]: every sequence of other events
    (movement and sprint keys, any key-up, click, unlock, mouse look)
    leaves all four as they were. *)
Theorem only_frames_and_space_move (events : list (Event N)) (w : World N) :
  forallb (fun e => negb (is_motion e)) events = true ->
  velocity (run w events) = velocity w /\
  position (run w events) = position w /\
  canJump (run w events) = canJump w /\
  direction (run w events) = direction w.
Proof.
  revert w. induction events as [|e es IH]; intros w Hev; [simpl; auto|].
  simpl in Hev. apply andb_true_iff in Hev as [He Hes].
  apply negb_true_iff in He. rewrite run_cons.
  destruct (handle_still e w He) as (Hv & Hp & Hc & Hd).
  destruct (IH (handle w e) Hes) as (Hv' & Hp' & Hc' & Hd').
  repeat split; congruence.
Qed.

End Handlers.

(** Instances on binary64. *)

Section HandlersBinary64.

Local Open Scope string_scope.

Lemma unknown_key_is_ignored_witness :
  onKeyDown "Escape" (@initial float _) = initial /\
  onKeyUp "Space" (@initial float _) = initial.
Proof.
  split.
  - apply (unknown_key_is_ignored "Escape" (@initial float _)).
    unfold keyDownCodes. simpl. intros Hi.
    repeat (destruct Hi as [Hi|Hi]; [discriminate Hi|]). exact Hi.
  - apply (unknown_key_is_ignored "Space" (@initial float _)).
    unfold keyUpCodes. simpl. intros Hi.
    repeat (destruct Hi as [Hi|Hi]; [discriminate Hi|]). exact Hi.
Defined.

Lemma last_key_event_wins_witness :
  onKeyUp "KeyW" (onKeyDown "KeyW" (@initial float _)) = onKeyUp "KeyW" initial.
Proof.
  apply (last_key_event_wins "KeyW" (@initial float _)). discriminate.
Defined.

Lemma sprint_flag_is_shared_witness :
  isSprinting (onKeyUp "ShiftRight" (onKeyDown "ShiftLeft" (@initial float _))) = false.
Proof.
  apply (sprint_flag_is_shared "ShiftRight" "ShiftLeft" (@initial float _));
    simpl; auto.
Defined.

Lemma only_frames_and_space_move_witness :
  velocity (run landed64 [KeyDown "KeyW"; KeyDown "ShiftLeft"; Unlock;
                          MouseLook 0%float 1%float; KeyUp "Space"; Click])
  = velocity landed64.
Proof.
  apply (only_frames_and_space_move
           [KeyDown "KeyW"; KeyDown "ShiftLeft"; Unlock;
            MouseLook 0%float 1%float; KeyUp "Space"; Click] landed64).
  reflexivity.
Defined.

End HandlersBinary64.

(** ** Further properties of the vertical motion, over exact arithmetic *)

Section Vertical.

Local Open Scope R_scope.
Local Open Scope string_scope.

(** X8. Standing on the ground arms the jump: with the pointer locked, the
    camera at height 2 and no upward velocity, a frame of at least a
    millisecond ends with the camera at height 2, zero vertical velocity and
    [canJump] set.  (A shorter frame may not: on binary64 the drop
    30 dt^2 of a frame of 2^-30 s is lost in rounding and the clamp does
    not fire.) *)
Theorem frame_on_ground_arms_jump (w : World R) (dt : R) :
  isLocked w = true -> y (position w) = 2 -> y (velocity w) <= 0 ->
  1 / 1000 <= dt ->
  canJump (animate dt w) = true /\
  y (position (animate dt w)) = 2 /\
  y (velocity (animate dt w)) = 0.
Proof.
  intros Hl Hy Hv Hdt. unfold animate. rewrite Hl.
  apply integrate_lands. rewrite Hy. nra.
Qed.

Lemma frame_on_ground_arms_jump_witness :
  canJump (animate (1 / 60) (set_isLocked true (@initial R _))) = true.
Proof.
  apply (frame_on_ground_arms_jump (set_isLocked true (@initial R _)) (1 / 60));
    simpl; try reflexivity; lra.
Defined.

(** What every event with a non-negative frame time preserves. *)
Lemma handle_velocity_cap (e : Event R) (w : World R) :
  match e with Frame dt => 0 <= dt | _ => True end ->
  y (velocity w) <= 12 -> y (velocity (handle w e)) <= 12.
Proof.
  intros Hdt Hv. destruct (is_motion e) eqn:Hm.
  - destruct e as [c|c| | |rx rz|dt]; simpl in Hm; try discriminate.
    + simpl handle. destruct (onKeyDown_Space_clears w) as (_ & _ & _ & Hy).
      apply String.eqb_eq in Hm. subst c. rewrite Hy.
      destruct (canJump w); [simpl; lra | exact Hv].
    + simpl handle. unfold animate. destruct (isLocked w); [|exact Hv].
      destruct (Rlt_dec (y (position w) + (y (velocity w) - 30 * dt) * dt) 2)
        as [Hlt|Hge].
      * destruct (integrate_lands dt w Hlt) as (_ & _ & ->). lra.
      * rewrite integrate_flies by lra.
        destruct (moveCamera_fields dt (updateVelocity dt w)) as (_ & -> & _).
        destruct (updateVelocity_fields dt w) as (-> & _). lra.
  - destruct (handle_still e w Hm) as (-> & _). exact Hv.
Qed.

(** X9. The vertical velocity never exceeds the jump velocity: in every
    state reached from the initial one by events whose frames have
    non-negative elapsed time, velocity.y <= 12 (gravity only lowers it,
    the clamp resets it to 0 and a jump sets it to 12). *)
Theorem vertical_velocity_never_exceeds_jump (events : list (Event R)) :
  nonNegativeFrames events ->
  y (velocity (run initial events)) <= 12.
Proof.
  assert (Hgen : forall (es : list (Event R)) (w : World R),
             nonNegativeFrames es -> y (velocity w) <= 12 ->
             y (velocity (run w es)) <= 12).
  { induction es as [|e es IH]; intros w Hn Hv; [exact Hv|].
    inversion Hn as [|? ? He Hes]; subst. rewrite run_cons.
    apply IH; [exact Hes | now apply handle_velocity_cap]. }
  intros Hn. apply Hgen; [exact Hn | simpl; lra].
Qed.

Lemma vertical_velocity_never_exceeds_jump_witness :
  nonNegativeFrames [Click; Frame 1; KeyDown "Space"; Frame (1 / 60)] /\
  y (velocity (run (@initial R _)
                 [Click; Frame 1; KeyDown "Space"; Frame (1 / 60)])) <= 12.
Proof.
  assert (Hn : nonNegativeFrames [Click; Frame 1; @KeyDown R "Space"; Frame (1 / 60)])
    by (unfold nonNegativeFrames; repeat constructor; lra).
  split; [exact Hn|].
  apply (vertical_velocity_never_exceeds_jump
           [Click; Frame 1; KeyDown "Space"; Frame (1 / 60)] Hn).
Defined.

Lemma repeat_snoc {A : Type} (a : A) (n : nat) :
  repeat a (S n) = (repeat a n ++ [a])%list.
Proof. simpl. apply repeat_cons. Qed.

Lemma flight_next (h v dt : R) (n : nat) :
  flightHeight h v dt (S n)
  = flightHeight h v dt n + (flightVelocity v dt n - 30 * dt) * dt /\
  flightVelocity v dt (S n) = flightVelocity v dt n - 30 * dt.
Proof.
  unfold flightHeight, flightVelocity. rewrite S_INR. split; ring.
Qed.

(** Frames of equal length, one at a time: after [n] frames the player is
    either back on the ground at some earlier frame, or still in flight on
    the closed-form trajectory. *)
Lemma flight_or_landed (w : World R) (h v dt : R) :
  airborne w h v -> 2 <= h ->
  forall n : nat,
    (exists k, (k <= n)%nat /\
       canJump (run w (repeat (Frame dt) k)) = true /\
       y (position (run w (repeat (Frame dt) k))) = 2 /\
       y (velocity (run w (repeat (Frame dt) k))) = 0 /\
       forall j, (j < k)%nat ->
         airborne (run w (repeat (Frame dt) j))
           (flightHeight h v dt j) (flightVelocity v dt j))
    \/
    (2 <= flightHeight h v dt n /\
     forall j, (j <= n)%nat ->
       airborne (run w (repeat (Frame dt) j))
         (flightHeight h v dt j) (flightVelocity v dt j)).
Proof.
  intros Ha Hh. induction n as [|n IH].
  - right. split.
    + unfold flightHeight. simpl. lra.
    + intros j Hj. assert (j = 0)%nat by (inversion Hj; reflexivity). subst j.
      simpl. eapply airborne_ext; [exact Ha | |];
        unfold flightHeight, flightVelocity; simpl; lra.
  - destruct IH as [(k & Hk & Hland)|[Hge Hair]].
    + left. exists k. split; [auto with arith | exact Hland].
    + pose proof (Hair n (le_n n)) as Hn.
      destruct (flight_next h v dt n) as [Eh Ev].
      destruct (Rlt_dec (flightHeight h v dt (S n)) 2) as [Hlt|Hnlt].
      * left. exists (S n). split; [apply le_n|].
        rewrite repeat_snoc, run_app.
        change (run (run w (repeat (Frame dt) n)) [Frame dt])
          with (animate dt (run w (repeat (Frame dt) n))).
        destruct Hn as (Hl & _ & Hy & Hv).
        unfold animate. rewrite Hl.
        destruct (integrate_lands dt (run w (repeat (Frame dt) n))) as (Hc & Hp & Hz).
        { rewrite Hy, Hv, <- Eh. exact Hlt. }
        split; [exact Hc|]. split; [exact Hp|]. split; [exact Hz|].
        intros j Hj. apply Hair. now apply Nat.lt_succ_r.
      * right. split; [lra|]. intros j Hj.
        apply Nat.le_succ_r in Hj. destruct Hj as [Hj| ->]; [now apply Hair|].
        rewrite repeat_snoc, run_app.
        change (run (run w (repeat (Frame dt) n)) [Frame dt])
          with (handle (run w (repeat (Frame dt) n)) (Frame dt)).
        eapply airborne_ext;
          [apply (flight_frame _ _ _ dt Hn); rewrite <- Eh; lra
          | now rewrite Eh | now rewrite Ev].
Qed.

(** The closed-form height drops below the ground eventually. *)
Lemma flight_height_unbounded_below (h v dt : R) :
  0 < dt -> 2 <= h -> exists n : nat, flightHeight h v dt n < 2.
Proof.
  intros Hdt Hh.
  destruct (INR_unbounded (Rmax 0 ((v * dt + (h - 2)) / (15 * dt * dt))))
    as [n Hn].
  exists n.
  assert (Hpos : 0 < INR n) by (pose proof (Rmax_l 0 ((v * dt + (h - 2)) / (15 * dt * dt))); lra).
  assert (Hone : 1 <= INR n).
  { destruct n as [|m]; [simpl in Hpos; lra|]. rewrite S_INR. pose proof (pos_INR m). lra. }
  assert (Hd : 0 < 15 * dt * dt) by nra.
  assert (Hr : (v * dt + (h - 2)) / (15 * dt * dt) < INR n)
    by (pose proof (Rmax_r 0 ((v * dt + (h - 2)) / (15 * dt * dt))); lra).
  assert (Hm : v * dt + (h - 2) < 15 * dt * dt * INR n).
  { apply (Rmult_lt_compat_r (15 * dt * dt)) in Hr; [|exact Hd].
    unfold Rdiv in Hr. rewrite Rmult_assoc, Rinv_l, Rmult_1_r in Hr by lra. lra. }
  unfold flightHeight. set (m := INR n) in *.
  assert (Hq : m * (v * dt + (h - 2)) <= m * (15 * dt * dt * m))
    by (apply Rmult_le_compat_l; lra).
  assert (Hs : h - 2 <= m * (h - 2)) by nra.
  nra.
Qed.

(** Every flight ends: from any state in flight at or above the ground,
    frames of any fixed positive length bring the player back to the
    ground after finitely many steps. *)
Lemma flight_lands (w : World R) (h v dt : R) :
  airborne w h v -> 2 <= h -> 0 < dt ->
  exists n : nat,
    canJump (run w (repeat (Frame dt) n)) = true /\
    y (position (run w (repeat (Frame dt) n))) = 2 /\
    y (velocity (run w (repeat (Frame dt) n))) = 0.
Proof.
  intros Ha Hh Hdt.
  destruct (flight_height_unbounded_below h v dt Hdt Hh) as [n Hn].
  destruct (flight_or_landed w h v dt Ha Hh n)
    as [(k & _ & Hc & Hy & Hv & _)|[Hge _]].
  - exists k. auto.
  - lra.
Qed.

(** X12. Every jump lands: from a state on the ground with the pointer
    locked and [canJump] set, a Space key-down followed by frames of any
    fixed length of at least a millisecond brings the camera back to height
    2 with zero vertical velocity and [canJump] set again after finitely
    many frames. *)
Theorem every_jump_lands (w : World R) (dt : R) :
  isLocked w = true -> canJump w = true -> y (position w) = 2 ->
  1 / 1000 <= dt ->
  exists n : nat,
    canJump (run (onKeyDown "Space" w) (repeat (Frame dt) n)) = true /\
    y (position (run (onKeyDown "Space" w) (repeat (Frame dt) n))) = 2 /\
    y (velocity (run (onKeyDown "Space" w) (repeat (Frame dt) n))) = 0.
Proof.
  intros Hl Hj Hy Hdt.
  apply (flight_lands (onKeyDown "Space" w) 2 12 dt); try lra.
  destruct (onKeyDown_Space_clears w) as (Hc & Hp & Hl' & Hv).
  unfold airborne. rewrite Hc, Hp, Hl', Hv, Hj. auto.
Qed.

Lemma every_jump_lands_witness :
  exists n : nat,
    canJump (run (onKeyDown "Space" (run (@initial R _) [Click; Frame 1]))
               (repeat (Frame (1 / 60)) n)) = true.
Proof.
  destruct (every_jump_lands (run (@initial R _) [Click; Frame 1]) (1 / 60))
    as (n & Hc & _).
  - unfold run. simpl fold_left. unfold animate. simpl isLocked. cbv iota.
    apply integrate_frame.
  - exact run_click_frame.
  - destruct (run_inv [Click; Frame 1] _ initial_inv) as [_ Himp].
    now apply Himp, run_click_frame.
  - lra.
  - exists n. exact Hc.
Defined.

End Vertical.

(** ** Further properties of the lateral motion, over exact arithmetic *)

Section Lateral.

Local Open Scope R_scope.
Local Open Scope string_scope.

(** The reference input direction is a unit vector or the zero vector. *)
Lemma inputDirection_norm (f b l r : bool) :
  fst (Reference.inputDirection f b l r) * fst (Reference.inputDirection f b l r)
  + snd (Reference.inputDirection f b l r) * snd (Reference.inputDirection f b l r)
  = if xorb f b || xorb l r then 1 else 0.
Proof.
  unfold Reference.inputDirection.
  pose proof (axis_sqr r l) as Hx. pose proof (axis_sqr f b) as Hz.
  rewrite (xorb_comm r l) in Hx.
  set (dx := Reference.axis r l) in *. set (dz := Reference.axis f b) in *.
  destruct (xorb f b || xorb l r) eqn:E; simpl; [|lra].
  assert (HS : 0 < dx * dx + dz * dz).
  { destruct (xorb f b), (xorb l r); simpl in E; try discriminate; lra. }
  pose proof (sqrt_sqrt (dx * dx + dz * dz) (Rlt_le _ _ HS)) as Hs.
  pose proof (sqrt_lt_R0 _ HS) as Hp.
  set (s := sqrt (dx * dx + dz * dz)) in *.
  replace (dx / s * (dx / s) + dz / s * (dz / s))
    with ((dx * dx + dz * dz) / (s * s)) by (field; lra).
  rewrite Hs. field. lra.
Qed.

Lemma inputDirection_inactive (f b l r : bool) :
  (l || r = false -> fst (Reference.inputDirection f b l r) = 0) /\
  (f || b = false -> snd (Reference.inputDirection f b l r) = 0).
Proof.
  unfold Reference.inputDirection, Reference.axis.
  split; intros Hf; apply orb_false_iff in Hf as [-> ->];
    destruct (_ || _); simpl; unfold Rdiv; ring.
Qed.

Lemma cruise_sqr (w : World R) :
  cruiseX w * cruiseX w + cruiseZ w * cruiseZ w
  = (if xorb (moveForward w) (moveBackward w) || xorb (moveLeft w) (moveRight w)
     then 1 else 0)
    * (Reference.effectiveSpeed (isSprinting w) / 10)
    * (Reference.effectiveSpeed (isSprinting w) / 10).
Proof.
  rewrite <- inputDirection_norm. unfold cruiseX, cruiseZ. field.
Qed.

Lemma cruise_bound (w : World R) :
  cruiseX w * cruiseX w + cruiseZ w * cruiseZ w <= 100.
Proof.
  rewrite cruise_sqr. unfold Reference.effectiveSpeed.
  destruct (_ || _), (isSprinting w); lra.
Qed.

(** One frame moves the lateral velocity towards the cruise velocity by
    the factor 1 - 10 dt, and keeps the cruise velocity itself. *)
Lemma integrate_relaxes (dt : R) (w : World R) :
  y (direction w) = 0 ->
  x (velocity (integrate dt w)) - cruiseX w
    = (1 - 10 * dt) * (x (velocity w) - cruiseX w) /\
  z (velocity (integrate dt w)) - cruiseZ w
    = (1 - 10 * dt) * (z (velocity w) - cruiseZ w) /\
  cruiseX (integrate dt w) = cruiseX w /\
  cruiseZ (integrate dt w) = cruiseZ w.
Proof.
  intros Hy. destruct (integrate_frame dt w) as (_ & _ & Hx & Hz).
  destruct (integrate_flags dt w) as (Ff & Fb & Fl & Fr & Fs).
  rewrite Hx, Hz, (updateVelocity_reference dt w Hy).
  unfold cruiseX, cruiseZ. rewrite Ff, Fb, Fl, Fr, Fs.
  destruct (inputDirection_inactive (moveForward w) (moveBackward w)
              (moveLeft w) (moveRight w)) as [Hix Hiz].
  unfold Reference.velocityUpdate. simpl.
  repeat split.
  - destruct (moveLeft w || moveRight w); [field | rewrite (Hix eq_refl); field].
  - destruct (moveForward w || moveBackward w); [field | rewrite (Hiz eq_refl); field].
Qed.

(** What every event with a short frame preserves. *)
Lemma handle_lateral_bound (e : Event R) (w : World R) :
  match e with Frame dt => 0 <= dt <= 1 / 10 | _ => True end ->
  y (direction w) = 0 ->
  x (velocity w) * x (velocity w) + z (velocity w) * z (velocity w) <= 100 ->
  x (velocity (handle w e)) * x (velocity (handle w e))
  + z (velocity (handle w e)) * z (velocity (handle w e)) <= 100.
Proof.
  intros Hdt Hy Hv. destruct e as [c|c| | |rx rz|dt].
  - simpl. unfold onKeyDown.
    repeat match goal with
           | |- context [if ?c then _ else _] => destruct c
           end; simpl; exact Hv.
  - simpl. destruct (onKeyUp_frame c w) as (_ & _ & _ & -> & _). exact Hv.
  - exact Hv.
  - exact Hv.
  - simpl. destruct (isLocked w); exact Hv.
  - simpl. unfold animate. destruct (isLocked w); [|exact Hv].
    destruct (integrate_relaxes dt w Hy) as (Ex & Ez & _).
    pose proof (cruise_bound w) as Hc.
    set (cx := cruiseX w) in *. set (cz := cruiseZ w) in *.
    set (vx := x (velocity w)) in *. set (vz := z (velocity w)) in *.
    replace (x (velocity (integrate dt w))) with (cx + (1 - 10 * dt) * (vx - cx)) by lra.
    replace (z (velocity (integrate dt w))) with (cz + (1 - 10 * dt) * (vz - cz)) by lra.
    set (k := 1 - 10 * dt). assert (Hk : 0 <= k <= 1) by (unfold k; lra).
    assert (Hdot : 2 * (vx * cx + vz * cz) <= 200)
      by (pose proof (Rle_0_sqr (vx - cx)); pose proof (Rle_0_sqr (vz - cz));
          unfold Rsqr in *; lra).
    assert (Hkk : 0 <= k * (1 - k)) by (apply Rmult_le_pos; lra).
    assert (H1 : k * (1 - k) * (2 * (vx * cx + vz * cz)) <= k * (1 - k) * 200)
      by (apply Rmult_le_compat_l; assumption).
    assert (H2 : k * k * (vx * vx + vz * vz) <= k * k * 100)
      by (apply Rmult_le_compat_l; [apply Rle_0_sqr | exact Hv]).
    assert (H3 : (1 - k) * (1 - k) * (cx * cx + cz * cz) <= (1 - k) * (1 - k) * 100)
      by (apply Rmult_le_compat_l; [apply Rle_0_sqr | exact Hc]).
    replace ((cx + k * (vx - cx)) * (cx + k * (vx - cx))
             + (cz + k * (vz - cz)) * (cz + k * (vz - cz)))
      with (k * k * (vx * vx + vz * vz)
            + (1 - k) * (1 - k) * (cx * cx + cz * cz)
            + k * (1 - k) * (2 * (vx * cx + vz * cz))) by ring.
    replace 100 with (k * k * 100 + (1 - k) * (1 - k) * 100 + k * (1 - k) * 200)
      by ring.
    lra.
Qed.

Lemma run_lateral_bound (events : list (Event R)) : forall w : World R,
  shortFrames events -> y (direction w) = 0 ->
  x (velocity w) * x (velocity w) + z (velocity w) * z (velocity w) <= 100 ->
  x (velocity (run w events)) * x (velocity (run w events))
  + z (velocity (run w events)) * z (velocity (run w events)) <= 100.
Proof.
  induction events as [|e es IH]; intros w Hs Hy Hv; [exact Hv|].
  inversion Hs as [|? ? He Hes]; subst. rewrite run_cons.
  apply IH; [exact Hes | now apply handle_direction_y
            | now apply handle_lateral_bound].
Qed.

(** X15. The lateral speed is bounded: along every sequence of events whose
    frames last between 0 and 1/10 s, the lateral velocity stays within the
    disc of radius 11, although the acceleration is added without an
    explicit cap.  (Friction and acceleration balance at the sprint cruise
    speed 10; the margin leaves room for rounding.) *)
Theorem lateral_speed_is_bounded (events : list (Event R)) :
  shortFrames events ->
  x (velocity (run initial events)) * x (velocity (run initial events))
  + z (velocity (run initial events)) * z (velocity (run initial events)) <= 121 /\
  lateralSpeed (velocity (run initial events)) <= 11.
Proof.
  intros Hs.
  assert (Hb : x (velocity (run (@initial R _) events)) * x (velocity (run (@initial R _) events))
               + z (velocity (run (@initial R _) events)) * z (velocity (run (@initial R _) events))
               <= 100).
  { apply run_lateral_bound; [exact Hs | reflexivity | simpl; lra]. }
  split; [lra|]. rewrite lateralSpeed_eq.
  replace 11 with (sqrt (11 * 11)) by (apply sqrt_square; lra).
  apply sqrt_le_1_alt. lra.
Qed.

Lemma lateral_speed_is_bounded_witness :
  shortFrames [Click; KeyDown "KeyW"; KeyDown "ShiftLeft"; Frame (1 / 60); Frame (1 / 60)] /\
  lateralSpeed (velocity (run (@initial R _)
     [Click; KeyDown "KeyW"; KeyDown "ShiftLeft"; Frame (1 / 60); Frame (1 / 60)])) <= 11.
Proof.
  assert (Hs : shortFrames [Click; @KeyDown R "KeyW"; KeyDown "ShiftLeft";
                            Frame (1 / 60); Frame (1 / 60)])
    by (unfold shortFrames; repeat constructor; lra).
  split; [exact Hs|].
  apply (lateral_speed_is_bounded
           [Click; KeyDown "KeyW"; KeyDown "ShiftLeft"; Frame (1 / 60); Frame (1 / 60)] Hs).
Defined.

Lemma length_of_zero (v : Vector3 R) :
  x v = 0 -> y v = 0 -> z v = 0 -> length v = 0.
Proof.
  destruct v as [a b c]. simpl. intros -> -> ->. unfold length. simpl.
  replace (0 * 0 + 0 * 0 + 0 * 0) with 0 by ring. apply sqrt_0.
Qed.

Lemma handle_direction_shape (e : Event R) (w : World R) :
  y (direction w) = 0 /\ (length (direction w) = 0 \/ length (direction w) = 1) ->
  y (direction (handle w e)) = 0 /\
  (length (direction (handle w e)) = 0 \/ length (direction (handle w e)) = 1).
Proof.
  intros [Hy Hl]. split; [now apply handle_direction_y|].
  destruct (is_motion e) eqn:Hm.
  - destruct e as [c|c| | |rx rz|dt]; simpl in Hm; try discriminate.
    + simpl. destruct (onKeyDown_frame c w) as (_ & _ & ->). exact Hl.
    + simpl. unfold animate. destruct (isLocked w); [|exact Hl].
      rewrite integrate_direction.
      destruct (xorb (moveForward w) (moveBackward w)
                || xorb (moveLeft w) (moveRight w)) eqn:Hf.
      * right. now apply direction_length.
      * left. destruct (direction_reference dt w Hy) as (Hx & Hy' & Hz).
        cbv zeta in Hx, Hz. unfold Reference.inputDirection in Hx, Hz.
        rewrite Hf in Hx, Hz. cbn [fst snd] in Hx, Hz.
        now apply length_of_zero.
  - destruct (handle_still e w Hm) as (_ & _ & _ & ->). exact Hl.
Qed.

(** X16. In every reachable state the [direction] vector is horizontal and
    is either the zero vector or a unit vector: it starts at zero, key
    events never write it, and every frame overwrites it with the
    normalised flag vector. *)
Theorem direction_is_always_unit_or_zero (events : list (Event R)) :
  y (direction (run initial events)) = 0 /\
  (length (direction (run initial events)) = 0 \/
   length (direction (run initial events)) = 1).
Proof.
  assert (Hgen : forall (es : list (Event R)) (w : World R),
             y (direction w) = 0 /\
             (length (direction w) = 0 \/ length (direction w) = 1) ->
             y (direction (run w es)) = 0 /\
             (length (direction (run w es)) = 0 \/
              length (direction (run w es)) = 1)).
  { induction es as [|e es IH]; intros w Hw; [exact Hw|].
    rewrite run_cons. apply IH. now apply handle_direction_shape. }
  apply Hgen. split; [reflexivity|]. left.
  apply length_of_zero; reflexivity.
Qed.

End Lateral.
